(** * The note page of annoote: [src/app/[noteID]/page.tsx]

    A shallow embedding of the React component [NotePage]: its seven
    [useState] cells, its four handlers ([fetchNote], [handleEditOrSave],
    [handleCopyURL], [handleDelete]) split at their [await] / [.then]
    points, and the part of the JSX that decides which controls exist and
    what they show.  The document store, the clipboard, the router and the
    two formatting libraries are collaborators of the page. *)

From stdpp Require Import gmap strings list fin_maps pretty.

(** ** Collaborators that the page imports

    [Timestamp] with [toDate] is Firestore's timestamp, [format] is
    date-fns' [format(date, pattern)] and [marked] is the markdown
    transform.  The page only calls them. *)
Class Collaborators := {
  Timestamp : Type;
  JsDate : Type;
  toDate : Timestamp → JsDate;
  format : JsDate → string → string;
  marked : string → string;
}.

Section NotePage.
Context `{Collaborators}.

(** ** Values stored in a document

    [DocumentData] is an untyped JS object.  Numbers are kept to the
    integers and NaN; truthiness only asks whether a number is zero or
    NaN. *)
Inductive JsVal :=
  | JNull
  | JBool (b : bool)
  | JNumber (n : Z)
  | JNaN
  | JStr (s : string)
  | JTimestamp (t : Timestamp)
  | JObject.

Definition truthy (v : JsVal) : bool :=
  match v with
  | JNull => false
  | JBool b => b
  | JNumber n => negb (n =? 0)%Z
  | JNaN => false
  | JStr s => negb (String.eqb s "")
  | JTimestamp _ => true
  | JObject => true
  end.

(** [x?.f || d] where a missing field reads as [undefined]. *)
Definition js_or (o : option JsVal) (d : JsVal) : JsVal :=
  match o with
  | Some v => if truthy v then v else d
  | None => d
  end.

(** [s || d] for a [string | null]. *)
Definition js_or_str (o : option string) (d : string) : string :=
  match o with
  | Some s => if String.eqb s "" then d else s
  | None => d
  end.

(** A document is an object used as a map from field names to values. *)
Abbreviation DocData := (gmap string JsVal).

(** ** Component state: the [useState] cells (lines 18-24) *)
Record State := {
  noteContent : JsVal;
  createdAt : option string;
  loading : bool;
  isEditing : bool;
  showDropdown : bool;
  showModal : bool;
  showCopyModal : bool;
}.

Definition setNoteContent (v : JsVal) (s : State) : State :=
  {| noteContent := v; createdAt := createdAt s; loading := loading s;
     isEditing := isEditing s; showDropdown := showDropdown s;
     showModal := showModal s; showCopyModal := showCopyModal s |}.

Definition setCreatedAt (d : option string) (s : State) : State :=
  {| noteContent := noteContent s; createdAt := d; loading := loading s;
     isEditing := isEditing s; showDropdown := showDropdown s;
     showModal := showModal s; showCopyModal := showCopyModal s |}.

Definition setLoading (b : bool) (s : State) : State :=
  {| noteContent := noteContent s; createdAt := createdAt s; loading := b;
     isEditing := isEditing s; showDropdown := showDropdown s;
     showModal := showModal s; showCopyModal := showCopyModal s |}.

Definition setIsEditing (b : bool) (s : State) : State :=
  {| noteContent := noteContent s; createdAt := createdAt s;
     loading := loading s; isEditing := b; showDropdown := showDropdown s;
     showModal := showModal s; showCopyModal := showCopyModal s |}.

Definition setShowDropdown (b : bool) (s : State) : State :=
  {| noteContent := noteContent s; createdAt := createdAt s;
     loading := loading s; isEditing := isEditing s; showDropdown := b;
     showModal := showModal s; showCopyModal := showCopyModal s |}.

Definition setShowModal (b : bool) (s : State) : State :=
  {| noteContent := noteContent s; createdAt := createdAt s;
     loading := loading s; isEditing := isEditing s;
     showDropdown := showDropdown s; showModal := b;
     showCopyModal := showCopyModal s |}.

Definition setShowCopyModal (b : bool) (s : State) : State :=
  {| noteContent := noteContent s; createdAt := createdAt s;
     loading := loading s; isEditing := isEditing s;
     showDropdown := showDropdown s; showModal := showModal s;
     showCopyModal := b |}.

(** The values handed to [useState] on mount. *)
Definition initialState : State :=
  {| noteContent := JStr ""; createdAt := None; loading := true;
     isEditing := false; showDropdown := false; showModal := false;
     showCopyModal := false |}.

(** ** Asynchronous calls and what the page does to the outside *)

(** A promise the page is waiting for. *)
Inductive Op :=
  | OpGetDoc (id : string)
  | OpUpdateDoc (id : string) (content : JsVal)
  | OpDeleteDoc (id : string)
  | OpWriteText (url : string).

Inductive Effect :=
  | Call (op : Op)
  | RouterPush (path : string)
  | Alert (msg : string)
  | ConsoleError (msg : string).

(** The page together with its surroundings.  [st] holds the hook cells as
    the setters last wrote them, [notes] is the "notes" collection,
    [inflight] the promises not yet settled (keyed by the order of
    creation), [effects] the outward calls made so far, oldest first.
    What React keeps of the cells once the page is unmounted is the
    business of [page_step] below. *)
Record World := {
  noteID : string;
  href : string;
  st : State;
  notes : gmap string DocData;
  inflight : gmap nat Op;
  next : nat;
  effects : list Effect;
  mounted : bool;
}.

Definition upd (f : State → State) (w : World) : World :=
  {| noteID := noteID w; href := href w; st := f (st w); notes := notes w;
     inflight := inflight w; next := next w; effects := effects w;
     mounted := mounted w |}.

Definition emit (e : Effect) (w : World) : World :=
  {| noteID := noteID w; href := href w; st := st w; notes := notes w;
     inflight := inflight w; next := next w; effects := effects w ++ [e];
     mounted := mounted w |}.

(** Calling an asynchronous API: the call goes out and its promise is
    pending. *)
Definition spawn (op : Op) (w : World) : World :=
  {| noteID := noteID w; href := href w; st := st w; notes := notes w;
     inflight := <[next w := op]> (inflight w); next := S (next w);
     effects := effects w ++ [Call op]; mounted := mounted w |}.

Definition settled (k : nat) (w : World) : World :=
  {| noteID := noteID w; href := href w; st := st w; notes := notes w;
     inflight := delete k (inflight w); next := next w;
     effects := effects w; mounted := mounted w |}.

Definition with_notes (m : gmap string DocData) (w : World) : World :=
  {| noteID := noteID w; href := href w; st := st w; notes := m;
     inflight := inflight w; next := next w; effects := effects w;
     mounted := mounted w |}.

Definition unmount (w : World) : World :=
  {| noteID := noteID w; href := href w; st := st w; notes := notes w;
     inflight := inflight w; next := next w; effects := effects w;
     mounted := false |}.

(** ** [fetchNote] (lines 29-57) *)

(** What [await getDoc(...)] hands back. *)
Inductive GetDocResult :=
  | GetDocThrew
  | Snapshot (data : option DocData).

(** The effect body up to the [await]. *)
Definition fetchNote (w : World) : World :=
  spawn (OpGetDoc (noteID w)) w.

(** Lines 41-47, run after [setNoteContent]. [None] stands for the
    [TypeError] of calling [toDate] on a value that has none. *)
Definition createdAt_label (o : option JsVal) : option string :=
  match o with
  | Some v =>
      if truthy v then
        match v with
        | JTimestamp t => Some (format (toDate t) "yyyy-MM-dd")
        | _ => None
        end
      else Some "Unknown"
  | None => Some "Unknown"
  end.

Definition fetchNote_catch (w : World) : World :=
  emit (RouterPush "/") (emit (ConsoleError "Error fetching note:") w).

(** The rest of the [try], the [catch] and the [finally]. *)
Definition fetchNote_resume (r : GetDocResult) (w : World) : World :=
  upd (setLoading false)
    match r with
    | GetDocThrew => fetchNote_catch w
    | Snapshot None => emit (RouterPush "/") w
    | Snapshot (Some noteData) =>
        let w1 := upd (setNoteContent (js_or (noteData !! "content") (JStr ""))) w in
        match createdAt_label (noteData !! "createdAt") with
        | Some label => upd (setCreatedAt (Some label)) w1
        | None => fetchNote_catch w1
        end
    end.

(** ** [handleEditOrSave] (lines 82-97) *)
Definition handleEditOrSave (w : World) : World :=
  if isEditing (st w) then
    spawn (OpUpdateDoc (noteID w) (noteContent (st w))) (upd (setLoading true) w)
  else upd (setIsEditing true) w.

Definition handleEditOrSave_resume (ok : bool) (w : World) : World :=
  upd (setLoading false)
    (if ok then upd (setIsEditing false) w
     else emit (Alert "Failed to save the note.")
            (emit (ConsoleError "Error saving note:") w)).

(** ** [handleCopyURL] (lines 99-105) *)
Definition handleCopyURL (w : World) : World :=
  upd (setShowDropdown false) (spawn (OpWriteText (href w)) w).

Definition handleCopyURL_then (ok : bool) (w : World) : World :=
  if ok then upd (setShowCopyModal true) w
  else emit (Alert "Failed to copy URL.") w.

(** ** [handleDelete] (lines 107-119) *)
Definition handleDelete (w : World) : World :=
  spawn (OpDeleteDoc (noteID w)) (upd (setLoading true) w).

Definition handleDelete_resume (ok : bool) (w : World) : World :=
  upd (setShowModal false)
    (upd (setLoading false)
       (if ok then emit (RouterPush "/") w
        else emit (Alert "Failed to delete the note.")
               (emit (ConsoleError "Error deleting note:") w))).

(** ** What is on screen (lines 121-242) *)
Inductive EditLabel := LabelEdit | LabelSave (spinner : bool).

Inductive Body :=
  | Textarea (value : JsVal)
  | Prose (html : string).

Record View := {
  v_title : string;
  v_date : string;
  v_edit_disabled : bool;
  v_edit_label : EditLabel;
  v_menu : bool;
  v_body : Body;
  v_delete_modal : option bool;
  v_copy_modal : bool;
}.

(** [marked] rejects everything that is not a string. *)
Definition marked_js (v : JsVal) : option string :=
  match v with
  | JStr s => Some (marked s)
  | _ => None
  end.

Definition render_body (s : State) : option Body :=
  if isEditing s then Some (Textarea (noteContent s))
  else Prose <$> marked_js (noteContent s).

(** Line 126. *)
Definition date_line (s : State) : string :=
  js_or_str (createdAt s) "Loading...".

Definition render (w : World) : option View :=
  body ← render_body (st w);
  Some {| v_title := noteID w;
          v_date := date_line (st w);
          v_edit_disabled := loading (st w);
          v_edit_label :=
            if isEditing (st w) then LabelSave (loading (st w)) else LabelEdit;
          v_menu := showDropdown (st w);
          v_body := body;
          v_delete_modal :=
            if showModal (st w) then Some (loading (st w)) else None;
          v_copy_modal := showCopyModal (st w) |}.

(** ** Events

    A click reaches its handler only when the control is rendered and not
    [disabled]; the guards below are those conditions of the JSX. *)
Inductive Event :=
  | ClickEditSave                 (* BeginEdit / Save, line 130 *)
  | ChangeText (s : string)       (* typing in the textarea, line 185 *)
  | ToggleMenu                    (* ToggleOptionsMenu, line 152 *)
  | PointerOutside                (* mousedown outside menu and button, line 60 *)
  | ClickCopyURL                  (* CopyShareLink, line 163 *)
  | ClickDeleteItem               (* RequestDelete, line 169 *)
  | ClickCancel                   (* CancelDelete, line 204 *)
  | ClickConfirmDelete            (* ConfirmDelete, line 210 *)
  | ClickCopyOK                   (* DismissCopyConfirm, line 228 *)
  | Settle (k : nat) (ok : bool)  (* pending call [k] resolves or rejects *)
  | StoreWrite (m : gmap string DocData)  (* someone else changes the store *)
  | Unmount.                      (* the user leaves the page *)

(** The store side of a settled call, then the handler's continuation.
    [updateDoc] rejects when the document does not exist. *)
Definition settle_op (op : Op) (ok : bool) (w : World) : World :=
  match op with
  | OpGetDoc id =>
      fetchNote_resume (if ok then Snapshot (notes w !! id) else GetDocThrew) w
  | OpUpdateDoc id c =>
      match ok, notes w !! id with
      | true, Some d =>
          handleEditOrSave_resume true
            (with_notes (<[id := <["content" := c]> d]> (notes w)) w)
      | _, _ => handleEditOrSave_resume false w
      end
  | OpDeleteDoc id =>
      if ok then handleDelete_resume true (with_notes (delete id (notes w)) w)
      else handleDelete_resume false w
  | OpWriteText _ => handleCopyURL_then ok w
  end.

Definition user_step (e : Event) (w : World) : World :=
  let s := st w in
  match e with
  | ClickEditSave => if loading s then w else handleEditOrSave w
  | ChangeText t =>
      if isEditing s then upd (setNoteContent (JStr t)) w else w
  | ToggleMenu => upd (setShowDropdown (negb (showDropdown s))) w
  | PointerOutside =>
      if showDropdown s then upd (setShowDropdown false) w else w
  | ClickCopyURL => if showDropdown s then handleCopyURL w else w
  | ClickDeleteItem =>
      if showDropdown s
      then upd (setShowDropdown false) (upd (setShowModal true) w)
      else w
  | ClickCancel => if showModal s then upd (setShowModal false) w else w
  | ClickConfirmDelete =>
      if showModal s && negb (loading s) then handleDelete w else w
  | ClickCopyOK =>
      if showCopyModal s then upd (setShowCopyModal false) w else w
  | _ => w
  end.

Definition step (w : World) (e : Event) : World :=
  match e with
  | Settle k ok =>
      match inflight w !! k with
      | Some op => settle_op op ok (settled k w)
      | None => w
      end
  | StoreWrite m => with_notes m w
  | Unmount => unmount w
  | _ => if mounted w then user_step e w else w
  end.

Definition run (w : World) (es : list Event) : World := fold_left step es w.

(** The page right after it is mounted: initial cells, first effect run. *)
Definition mount (id url : string) (m : gmap string DocData) : World :=
  fetchNote
    {| noteID := id; href := url; st := initialState; notes := m;
       inflight := ∅; next := 0; effects := []; mounted := true |}.

Inductive reachable : World → Prop :=
  | reachable_mount id url m : reachable (mount id url m)
  | reachable_step w e : reachable w → reachable (step w e).

(** ** Reading the flags as the lifecycle of the specification *)

Definition store_op (op : Op) : bool :=
  match op with OpWriteText _ => false | _ => true end.

Definition is_update (op : Op) : bool :=
  match op with OpUpdateDoc _ _ => true | _ => false end.

Definition is_delete (op : Op) : bool :=
  match op with OpDeleteDoc _ => true | _ => false end.

Definition pending (f : Op → bool) (w : World) : bool :=
  bool_decide (map_Exists (λ _ op, f op = true) (inflight w)).

Inductive Lifecycle := Loading | Viewing | Editing | Saving | Deleting.

(** The five lifecycle values of the specification, read off the two
    flags [loading] and [isEditing] and the call that is in flight. *)
Definition lifecycle_of (w : World) : Lifecycle :=
  if pending is_delete w then Deleting
  else if pending is_update w then Saving
  else if loading (st w) then Loading
  else if isEditing (st w) then Editing
  else Viewing.

Definition overlays_visible (s : State) : nat :=
  Nat.b2n (showDropdown s) + Nat.b2n (showModal s) + Nat.b2n (showCopyModal s).

(** What a step adds to the log of outward calls. *)
Definition emitted (w : World) (e : Event) : list Effect :=
  drop (length (effects w)) (effects (step w e)).

(** ** Well-formedness of a running page

    Keys of pending calls are below [next]; at most one call to the store
    is pending; [loading] is set exactly while one is; and while the first
    fetch is pending the cells that hold the note are untouched. *)
Record page_inv (w : World) : Prop := {
  inv_fresh : ∀ k op, inflight w !! k = Some op → k < next w;
  inv_single : ∀ k k' op op',
    inflight w !! k = Some op → inflight w !! k' = Some op' →
    store_op op = true → store_op op' = true → k = k';
  inv_busy : ∀ k op,
    inflight w !! k = Some op → store_op op = true → loading (st w) = true;
  inv_idle : loading (st w) = true →
    ∃ k op, inflight w !! k = Some op ∧ store_op op = true;
  inv_fetching : ∀ k id, inflight w !! k = Some (OpGetDoc id) →
    noteContent (st w) = JStr "" ∧ createdAt (st w) = None ∧
    isEditing (st w) = false;
}.

(** Events that may come while call [k] is pending and the page stays up:
    anything but the settling of [k] itself, a write to the store by someone
    else, and leaving the page. *)
Definition onlooker (k : nat) (e : Event) : bool :=
  match e with
  | StoreWrite _ | Unmount => false
  | Settle j _ => negb (Nat.eqb j k)
  | _ => true
  end.

(** Events that do not edit the draft. *)
Definition quiet (e : Event) : bool :=
  match e with ChangeText _ => false | _ => true end.

(** The draft after the user's typing among [es]. *)
Definition typed (c : JsVal) (e : Event) : JsVal :=
  match e with ChangeText t => JStr t | _ => c end.

Definition draft_after (es : list Event) (c : JsVal) : JsVal :=
  fold_left typed es c.

(** A save of [c] is in flight as call [k]. *)
Definition saving (k : nat) (c : JsVal) (w : World) : Prop :=
  inflight w !! k = Some (OpUpdateDoc (noteID w) c) ∧
  isEditing (st w) = true ∧ loading (st w) = true ∧ mounted w = true.


(** ** Leaving the page

    The source has no cleanup for its pending calls: a call that settles
    after the page was left still runs its continuation.  React, though,
    drops a setter call made on a component that is no longer mounted.  So
    a step of a page that was left keeps the cells as they are; what the
    step does to the pending calls, the store and the outside is as in
    [step]. *)
Definition with_cells (s : State) (w : World) : World :=
  {| noteID := noteID w; href := href w; st := s; notes := notes w;
     inflight := inflight w; next := next w; effects := effects w;
     mounted := mounted w |}.

Definition page_step (w : World) (e : Event) : World :=
  if mounted w then step w e else with_cells (st w) (step w e).


(** ** The click-outside effect (lines 59-80) *)

(** Where a [mousedown] lands. *)
Inductive Target := OnMenu | OnMenuButton | Elsewhere.

(** [dropdownRef.current.contains(target)]; the ref is null while the menu
    is not rendered (line 157). *)
Definition dropdownRef_contains (w : World) (t : Target) : option bool :=
  if showDropdown (st w)
  then Some match t with OnMenu => true | _ => false end
  else None.

(** [buttonRef.current.contains(target)]; the button is always rendered. *)
Definition buttonRef_contains (t : Target) : option bool :=
  Some match t with OnMenuButton => true | _ => false end.

Definition handleClickOutside (t : Target) (w : World) : World :=
  match dropdownRef_contains w t, buttonRef_contains t with
  | Some false, Some false => upd (setShowDropdown false) w
  | _, _ => w
  end.

(** The listener sits on the document while [showDropdown] holds
    (lines 71-75). *)
Definition mousedown (t : Target) (w : World) : World :=
  if mounted w && showDropdown (st w) then handleClickOutside t w else w.

(** ** What the page may do to the outside *)

(** The outward calls the source contains, for the page of [w]. *)
Definition expected (w : World) (x : Effect) : Prop :=
  match x with
  | Call (OpGetDoc id) | Call (OpUpdateDoc id _) | Call (OpDeleteDoc id) =>
      id = noteID w
  | Call (OpWriteText url) => url = href w
  | RouterPush path => path = "/"
  | Alert msg =>
      msg ∈ ["Failed to save the note."; "Failed to copy URL.";
             "Failed to delete the note."]
  | ConsoleError msg =>
      msg ∈ ["Error fetching note:"; "Error saving note:";
             "Error deleting note:"]
  end.

Definition is_fetch (x : Effect) : bool :=
  match x with Call (OpGetDoc _) => true | _ => false end.

(** How often [getDoc] was called. *)
Definition fetches (l : list Effect) : nat :=
  length (filter (λ x, is_fetch x = true) l).

(** The alert a rejected call ends in; a rejected fetch has none. *)
Definition failure_notice (op : Op) : option string :=
  match op with
  | OpGetDoc _ => None
  | OpUpdateDoc _ _ => Some "Failed to save the note."
  | OpDeleteDoc _ => Some "Failed to delete the note."
  | OpWriteText _ => Some "Failed to copy URL."
  end.

(** Events of the menu and the two dialogs, the clipboard included. *)
Definition overlay_event (w : World) (e : Event) : bool :=
  match e with
  | ToggleMenu | PointerOutside | ClickCopyURL | ClickDeleteItem
  | ClickCancel | ClickCopyOK => true
  | Settle k _ =>
      match inflight w !! k with
      | Some (OpWriteText _) => true
      | _ => false
      end
  | _ => false
  end.

End NotePage.

(** ** A host to run the page on

    A UTC clock, timestamps in whole seconds, dates in milliseconds, the
    proleptic Gregorian calendar for the one pattern the page uses, and a
    markdown transform that wraps its input in a paragraph. *)
Module Host.

Definition civil_from_days (days : Z) : Z * Z * Z :=
  let z := (days + 719468)%Z in
  let era := (z / 146097)%Z in
  let doe := (z - era * 146097)%Z in
  let yoe := ((doe - doe / 1460 + doe / 36524 - doe / 146096) / 365)%Z in
  let doy := (doe - (365 * yoe + yoe / 4 - yoe / 100))%Z in
  let mp := ((5 * doy + 2) / 153)%Z in
  let d := (doy - (153 * mp + 2) / 5 + 1)%Z in
  let m := (if (mp <? 10)%Z then mp + 3 else mp - 9)%Z in
  ((if (m <=? 2)%Z then yoe + era * 400 + 1 else yoe + era * 400)%Z, m, d).

Fixpoint zeros (n : nat) : string :=
  match n with O => "" | S n => "0" +:+ zeros n end.

Definition addLeadingZeros (n : Z) (len : nat) : string :=
  let digits := pretty (Z.abs n) in
  zeros (len - String.length digits) +:+ digits.

Definition yyyy_MM_dd (ms : Z) : string :=
  let '(y, m, d) := civil_from_days (ms / 86400000)%Z in
  addLeadingZeros (if (0 <? y)%Z then y else 1 - y)%Z 4 +:+ "-" +:+
  addLeadingZeros m 2 +:+ "-" +:+ addLeadingZeros d 2.

#[export] Instance utc : Collaborators := {|
  Timestamp := Z;
  JsDate := Z;
  toDate := λ seconds, (1000 * seconds)%Z;
  format := λ ms pattern,
    if String.eqb pattern "yyyy-MM-dd" then yyyy_MM_dd ms else pattern;
  marked := λ src, "<p>" +:+ src +:+ "</p>";
|}.

(** A note created on 2024-02-29, 12:00 UTC. *)
Definition hello : gmap string JsVal :=
  {[ "content" := JStr "hello"; "createdAt" := JTimestamp 1709208000%Z ]}.

Definition shelf : gmap string (gmap string JsVal) := {[ "abc123" := hello ]}.

Definition page : World := mount "abc123" "https://annoote.example/abc123" shelf.

(** The page after its note has arrived. *)
Definition loaded : World := step page (Settle 0 true).

(** The page in the editor. *)
Definition editing : World := step loaded ClickEditSave.

(** The loaded page with its menu open. *)
Definition menu_open : World := step loaded ToggleMenu.

(** The delete dialog is open on the loaded note. *)
Definition confirming : World := run loaded [ToggleMenu; ClickDeleteItem].

(** A note whose content is the number zero. *)
Definition zero_note : gmap string JsVal := {[ "content" := JNumber 0 ]}.

Definition zero_page : World :=
  mount "n0" "https://annoote.example/n0" {[ "n0" := zero_note ]}.

(** A note whose [createdAt] is a string, not a timestamp. *)
Definition undated : gmap string JsVal :=
  {[ "content" := JStr "hi"; "createdAt" := JStr "yesterday" ]}.

Definition undated_page : World :=
  mount "u1" "https://annoote.example/u1" {[ "u1" := undated ]}.

End Host.

(** * Properties *)

Section Properties.
Context `{Collaborators}.

(** ** The invariant of a running page *)

Lemma page_inv_mount id url m : page_inv (mount id url m).
Proof.
  split; simpl.
  - intros k op Hk. apply lookup_insert_Some in Hk as [[<- _]|[_ Hk]]; [lia|].
    by rewrite lookup_empty in Hk.
  - intros k k' op op' Hk Hk' _ _.
    apply lookup_insert_Some in Hk as [[<- _]|[_ Hk]];
      apply lookup_insert_Some in Hk' as [[<- _]|[_ Hk']];
      rewrite ?lookup_empty in *; congruence.
  - done.
  - intros _. exists 0, (OpGetDoc id). by rewrite lookup_insert_eq.
  - done.
Qed.

Lemma idle_no_store_op w k op :
  page_inv w → loading (st w) = false → inflight w !! k = Some op →
  store_op op = false.
Proof.
  intros I Hl Hk. destruct (store_op op) eqn:E; [|done].
  pose proof (inv_busy w I k op Hk E). congruence.
Qed.

(** A step that starts or settles nothing and keeps [loading]. *)
Lemma page_inv_quiet w w' :
  page_inv w → inflight w' = inflight w → next w' = next w →
  loading (st w') = loading (st w) →
  (loading (st w) = true → isEditing (st w) = false →
   noteContent (st w') = noteContent (st w) ∧
   createdAt (st w') = createdAt (st w) ∧ isEditing (st w') = false) →
  page_inv w'.
Proof.
  intros I Hf Hn Hl Hc. split; rewrite ?Hf, ?Hn, ?Hl.
  - apply I.
  - apply I.
  - apply I.
  - apply I.
  - intros k id Hk. destruct (inv_fetching w I k id Hk) as (Hc1 & Hc2 & Hc3).
    destruct Hc as (-> & -> & ->); auto.
    by apply (inv_busy w I k (OpGetDoc id)).
Qed.

(** The page is idle and starts an update or a delete. *)
Lemma page_inv_spawn_store w w' op :
  page_inv w → loading (st w) = false →
  inflight w' = <[next w := op]> (inflight w) → next w' = S (next w) →
  loading (st w') = true → store_op op = true → (∀ id, op ≠ OpGetDoc id) →
  page_inv w'.
Proof.
  intros I Hidle Hf Hn Hl Hop Hget. split; rewrite ?Hf, ?Hn.
  - intros k o Hk. apply lookup_insert_Some in Hk as [[<- _]|[_ Hk]]; [lia|].
    apply (inv_fresh w I) in Hk. lia.
  - intros k k' o o' Hk Hk' Ho Ho'.
    apply lookup_insert_Some in Hk as [[<- _]|[_ Hk]];
      apply lookup_insert_Some in Hk' as [[<- _]|[_ Hk']]; try done.
    + pose proof (idle_no_store_op w k' o' I Hidle Hk'). congruence.
    + pose proof (idle_no_store_op w k o I Hidle Hk). congruence.
    + pose proof (idle_no_store_op w k o I Hidle Hk). congruence.
  - done.
  - intros _. exists (next w), op. by rewrite lookup_insert_eq.
  - intros k id Hk. apply lookup_insert_Some in Hk as [[_ ->]|[_ Hk]].
    + by destruct (Hget id).
    + pose proof (idle_no_store_op w k _ I Hidle Hk). done.
Qed.

(** The page starts a clipboard write. *)
Lemma page_inv_spawn_clip w w' url :
  page_inv w →
  inflight w' = <[next w := OpWriteText url]> (inflight w) →
  next w' = S (next w) → loading (st w') = loading (st w) →
  noteContent (st w') = noteContent (st w) →
  createdAt (st w') = createdAt (st w) →
  isEditing (st w') = isEditing (st w) →
  page_inv w'.
Proof.
  intros I Hf Hn Hl Hc1 Hc2 Hc3.
  split; rewrite ?Hf, ?Hn, ?Hl, ?Hc1, ?Hc2, ?Hc3.
  - intros k o Hk. apply lookup_insert_Some in Hk as [[<- _]|[_ Hk]]; [lia|].
    apply (inv_fresh w I) in Hk. lia.
  - intros k k' o o' Hk Hk' Ho Ho'.
    apply lookup_insert_Some in Hk as [[_ <-]|[_ Hk]]; [done|].
    apply lookup_insert_Some in Hk' as [[_ <-]|[_ Hk']]; [done|].
    by apply (inv_single w I k k' o o').
  - intros k o Hk Ho. apply lookup_insert_Some in Hk as [[_ <-]|[_ Hk]]; [done|].
    by apply (inv_busy w I k o).
  - intros Hb. destruct (inv_idle w I Hb) as (k & o & Hk & Ho).
    exists k, o. split; [|done]. rewrite lookup_insert_ne; [done|].
    apply (inv_fresh w I) in Hk. lia.
  - intros k id Hk. apply lookup_insert_Some in Hk as [[_ ?]|[_ Hk]]; [done|].
    by apply (inv_fetching w I k id).
Qed.

(** The one store call in flight settles. *)
Lemma page_inv_settle_store w w' k op :
  page_inv w → inflight w !! k = Some op → store_op op = true →
  inflight w' = delete k (inflight w) → next w' = next w →
  loading (st w') = false →
  page_inv w'.
Proof.
  intros I Hk Hop Hf Hn Hl.
  assert (Hnone : ∀ j o, delete k (inflight w) !! j = Some o → store_op o = false).
  { intros j o Hj. apply lookup_delete_Some in Hj as [Hne Hj].
    destruct (store_op o) eqn:E; [|done].
    destruct Hne. by apply (inv_single w I k j op o). }
  split; rewrite ?Hf, ?Hn, ?Hl.
  - intros j o Hj. apply lookup_delete_Some in Hj as [_ Hj]. by apply (inv_fresh w I j o).
  - intros j j' o o' Hj _ Ho _. apply Hnone in Hj. congruence.
  - intros j o Hj Ho. apply Hnone in Hj. congruence.
  - done.
  - intros j id Hj. by apply Hnone in Hj.
Qed.

(** A clipboard write settles. *)
Lemma page_inv_settle_clip w w' k op :
  page_inv w → inflight w !! k = Some op → store_op op = false →
  inflight w' = delete k (inflight w) → next w' = next w →
  loading (st w') = loading (st w) →
  noteContent (st w') = noteContent (st w) →
  createdAt (st w') = createdAt (st w) →
  isEditing (st w') = isEditing (st w) →
  page_inv w'.
Proof.
  intros I Hk Hop Hf Hn Hl Hc1 Hc2 Hc3.
  split; rewrite ?Hf, ?Hn, ?Hl, ?Hc1, ?Hc2, ?Hc3.
  - intros j o Hj. apply lookup_delete_Some in Hj as [_ Hj]. by apply (inv_fresh w I j o).
  - intros j j' o o' Hj Hj'.
    apply lookup_delete_Some in Hj as [_ Hj].
    apply lookup_delete_Some in Hj' as [_ Hj'].
    by apply (inv_single w I j j' o o').
  - intros j o Hj. apply lookup_delete_Some in Hj as [_ Hj]. by apply (inv_busy w I j o).
  - intros Hb. destruct (inv_idle w I Hb) as (j & o & Hj & Ho).
    exists j, o. split; [|done]. rewrite lookup_delete_ne; [done|].
    intros ->. rewrite Hk in Hj. congruence.
  - intros j id Hj. apply lookup_delete_Some in Hj as [_ Hj]. by apply (inv_fetching w I j id).
Qed.

Lemma settle_op_store_fields op ok w :
  store_op op = true →
  inflight (settle_op op ok w) = inflight w ∧
  next (settle_op op ok w) = next w ∧
  loading (st (settle_op op ok w)) = false.
Proof.
  intros Hop. destruct op as [id|id c|id|url]; try done; simpl.
  - destruct ok; [destruct (notes w !! id) as [d|]|]; simpl; try done.
    by destruct (createdAt_label (d !! "createdAt")).
  - destruct ok; [destruct (notes w !! id)|]; done.
  - by destruct ok.
Qed.

Lemma page_inv_step w e : page_inv w → page_inv (step w e).
Proof.
  intros I.
  destruct e; simpl; try (destruct (mounted w); [|done]); simpl; try done.
  - (* ClickEditSave *)
    destruct (loading (st w)) eqn:Hl; [done|]. unfold handleEditOrSave.
    destruct (isEditing (st w)) eqn:He.
    + by eapply page_inv_spawn_store.
    + apply (page_inv_quiet w); try done. simpl. congruence.
  - destruct (isEditing (st w)) eqn:He; [|done].
    apply (page_inv_quiet w); try done. congruence.
  - by apply (page_inv_quiet w).
  - destruct (showDropdown (st w)); [|done]. by apply (page_inv_quiet w).
  - destruct (showDropdown (st w)); [|done]. by eapply page_inv_spawn_clip.
  - destruct (showDropdown (st w)); [|done]. by apply (page_inv_quiet w).
  - destruct (showModal (st w)); [|done]. by apply (page_inv_quiet w).
  - destruct (showModal (st w)); [|done].
    destruct (loading (st w)) eqn:Hl; [done|]. simpl.
    by eapply page_inv_spawn_store.
  - destruct (showCopyModal (st w)); [|done]. by apply (page_inv_quiet w).
  - (* Settle *)
    destruct (inflight w !! k) as [op|] eqn:Hk; [|done].
    destruct (store_op op) eqn:Hop.
    + destruct (settle_op_store_fields op ok (settled k w) Hop) as (Hf & Hn & Hl).
      by eapply page_inv_settle_store.
    + destruct op; try done. simpl.
      destruct ok; by eapply page_inv_settle_clip.
  - by apply (page_inv_quiet w).
  - by apply (page_inv_quiet w).
Qed.

Lemma reachable_inv w : reachable w → page_inv w.
Proof.
  induction 1; [apply page_inv_mount | by apply page_inv_step].
Qed.


(** ** Pending calls and the lifecycle *)

Lemma pending_true f w :
  pending f w = true ↔ ∃ k op, inflight w !! k = Some op ∧ f op = true.
Proof. unfold pending. by rewrite bool_decide_eq_true. Qed.

Lemma pending_false f w :
  pending f w = false ↔ ∀ k op, inflight w !! k = Some op → f op = false.
Proof.
  unfold pending. rewrite bool_decide_eq_false. split.
  - intros Hn k op Hk. destruct (f op) eqn:E; [|done].
    destruct Hn. by exists k, op.
  - intros Ha (k & op & Hk & Hf). rewrite (Ha k op Hk) in Hf. done.
Qed.

Lemma store_op_of_update op : is_update op = true → store_op op = true.
Proof. by destruct op. Qed.

Lemma store_op_of_delete op : is_delete op = true → store_op op = true.
Proof. by destruct op. Qed.

Lemma idle_not_pending f w :
  page_inv w → loading (st w) = false →
  (∀ op, f op = true → store_op op = true) → pending f w = false.
Proof.
  intros I Hl Hf. apply pending_false. intros k op Hk.
  destruct (f op) eqn:E; [|done]. apply Hf in E.
  pose proof (idle_no_store_op w k op I Hl Hk). congruence.
Qed.

Lemma lifecycle_idle w :
  page_inv w → loading (st w) = false →
  lifecycle_of w = if isEditing (st w) then Editing else Viewing.
Proof.
  intros I Hl. unfold lifecycle_of.
  rewrite (idle_not_pending is_delete w I Hl store_op_of_delete).
  rewrite (idle_not_pending is_update w I Hl store_op_of_update).
  by rewrite Hl.
Qed.

Lemma lifecycle_busy w :
  page_inv w →
  lifecycle_of w = Loading ∨ lifecycle_of w = Saving ∨ lifecycle_of w = Deleting →
  loading (st w) = true.
Proof.
  intros I Hb. destruct (loading (st w)) eqn:Hl; [done|].
  rewrite (lifecycle_idle w I Hl) in Hb.
  destruct (isEditing (st w)); destruct Hb as [Hb|[Hb|Hb]]; discriminate.
Qed.

Lemma reachable_run w es : reachable w → reachable (run w es).
Proof.
  revert w. induction es as [|e es IH]; intros w Hw; [done|].
  apply IH. by constructor.
Qed.

(** ** What a step adds to the log *)

Lemma drop_own {A} (l x : list A) : drop (length l) (l ++ x) = x.
Proof. by rewrite drop_app_length. Qed.

Lemma drop_own2 {A} (l : list A) a b : drop (length l) ((l ++ [a]) ++ [b]) = [a; b].
Proof. by rewrite <- app_assoc, drop_app_length. Qed.

Lemma drop_own0 {A} (l : list A) : drop (length l) l = [].
Proof. apply drop_all. Qed.


(** ** Loading the note *)

(** C4. When the document is missing or [getDoc] throws, the page calls
    [router.push("/")] and shows nothing of any note: the content is still
    the empty string and the date line still reads "Loading...". *)
Theorem load_missing_goes_home w k id ok :
  reachable w → inflight w !! k = Some (OpGetDoc id) →
  notes w !! id = None ∨ ok = false →
  let w' := step w (Settle k ok) in
  RouterPush "/" ∈ emitted w (Settle k ok) ∧
  noteContent (st w') = JStr "" ∧ createdAt (st w') = None ∧
  loading (st w') = false ∧
  ∃ v, render w' = Some v ∧ v_body v = Prose (marked "") ∧
       v_date v = "Loading...".
Proof.
  intros Hr Hk Hfail. apply reachable_inv in Hr.
  destruct (inv_fetching w Hr k id Hk) as (Hc & Hd & He).
  assert (Hres : (if ok then Snapshot (notes w !! id) else GetDocThrew)
                 = GetDocThrew ∨
                 (if ok then Snapshot (notes w !! id) else GetDocThrew)
                 = Snapshot None).
  { destruct Hfail as [->| ->]; [destruct ok|]; auto. }
  unfold emitted. simpl. rewrite Hk. simpl.
  destruct Hres as [-> | ->]; simpl; rewrite ?drop_own2, ?drop_own;
    unfold render, render_body; simpl; rewrite Hc, Hd, He; simpl.
  all: split; [repeat constructor|].
  all: repeat split; try done.
  all: eexists; split; [done|]; split; [done|]; unfold date_line; simpl; by rewrite Hd.
Qed.

(** C5. After a successful load the date cell is "Unknown" when the
    document has no [createdAt] value, and the timestamp formatted with the
    pattern "yyyy-MM-dd" when it has one; the date line shows that cell. *)
Theorem load_created_at w k id d :
  inflight w !! k = Some (OpGetDoc id) → notes w !! id = Some d →
  let w' := step w (Settle k true) in
  ((d !! "createdAt" = None ∨
    ∃ v, d !! "createdAt" = Some v ∧ truthy v = false) →
   createdAt (st w') = Some "Unknown" ∧ date_line (st w') = "Unknown") ∧
  (∀ t, d !! "createdAt" = Some (JTimestamp t) →
   createdAt (st w') = Some (format (toDate t) "yyyy-MM-dd") ∧
   (format (toDate t) "yyyy-MM-dd" ≠ "" →
    date_line (st w') = format (toDate t) "yyyy-MM-dd")).
Proof.
  intros Hk Hd. simpl. rewrite Hk. simpl. rewrite Hd. split.
  - intros Hno. assert (createdAt_label (d !! "createdAt") = Some "Unknown") as ->.
    { destruct Hno as [->|(v & -> & Hv)]; simpl; [done|by rewrite Hv]. }
    done.
  - intros t ->. simpl. split; [done|]. intros Hne. unfold date_line. simpl.
    destruct (String.eqb_spec (format (toDate t) "yyyy-MM-dd") ""); done.
Qed.

(** C10. A document without a [content] field, or with a falsy one, loads
    as the empty string, which is what [marked] then receives. *)
Theorem load_falsy_content_is_empty w k id d :
  inflight w !! k = Some (OpGetDoc id) → notes w !! id = Some d →
  d !! "content" = None ∨ (∃ v, d !! "content" = Some v ∧ truthy v = false) →
  let w' := step w (Settle k true) in
  noteContent (st w') = JStr "" ∧
  marked_js (noteContent (st w')) = Some (marked "").
Proof.
  intros Hk Hd Hno. simpl. rewrite Hk. simpl. rewrite Hd.
  assert (js_or (d !! "content") (JStr "") = JStr "") as Hc.
  { destruct Hno as [->|(v & -> & Hv)]; simpl; [done|by rewrite Hv]. }
  destruct (createdAt_label (d !! "createdAt")); simpl; rewrite Hc; done.
Qed.

(** ** The Edit/Save button *)

(** C6. While a load, a save or a delete is going on, the Edit/Save button
    is rendered disabled and a click on it changes nothing; and never are
    two calls to the store pending together. *)
Theorem edit_save_disabled_while_busy w :
  reachable w →
  lifecycle_of w = Loading ∨ lifecycle_of w = Saving ∨ lifecycle_of w = Deleting →
  (∀ v, render w = Some v → v_edit_disabled v = true) ∧
  step w ClickEditSave = w ∧
  (∀ k k' op op', inflight w !! k = Some op → inflight w !! k' = Some op' →
     store_op op = true → store_op op' = true → k = k').
Proof.
  intros Hr Hb. apply reachable_inv in Hr.
  pose proof (lifecycle_busy w Hr Hb) as Hl. repeat split.
  - intros v. unfold render. destruct (render_body (st w)); [|done].
    simpl. intros [= <-]. done.
  - simpl. rewrite Hl. by destruct (mounted w).
  - apply Hr.
Qed.


Lemma lifecycle_editing w :
  lifecycle_of w = Editing → loading (st w) = false ∧ isEditing (st w) = true.
Proof.
  unfold lifecycle_of.
  destruct (pending is_delete w), (pending is_update w),
    (loading (st w)), (isEditing (st w)); done.
Qed.

(** ** Saving *)

Lemma click_save w :
  page_inv w → mounted w = true → loading (st w) = false →
  isEditing (st w) = true →
  let w1 := step w ClickEditSave in
  saving (next w) (noteContent (st w)) w1 ∧
  noteContent (st w1) = noteContent (st w) ∧ notes w1 = notes w ∧
  noteID w1 = noteID w ∧ page_inv w1 ∧
  effects w1 = effects w ++ [Call (OpUpdateDoc (noteID w) (noteContent (st w)))].
Proof.
  intros I Hm Hl He. pose proof (page_inv_step w ClickEditSave I) as I1.
  revert I1. simpl. rewrite Hm. simpl. rewrite Hl. unfold handleEditOrSave.
  rewrite He. intros I1. unfold saving. simpl. rewrite lookup_insert_eq.
  by rewrite Hm.
Qed.

(** While a save is pending the page stays in the editor, and only typing
    changes the draft. *)
Lemma saving_step k c w e :
  page_inv w → saving k c w → onlooker k e = true →
  saving k c (step w e) ∧ notes (step w e) = notes w ∧
  noteID (step w e) = noteID w ∧
  noteContent (st (step w e)) = typed (noteContent (st w)) e.
Proof.
  intros I (Hk & He & Hl & Hm) Hby. unfold saving.
  pose proof (inv_fresh w I k _ Hk) as Hlt.
  destruct e; try done; simpl; rewrite ?Hm; simpl; rewrite ?Hl, ?He; simpl.
  - done.
  - done.
  - done.
  - by destruct (showDropdown (st w)).
  - destruct (showDropdown (st w)); [|done]. repeat split; try done.
    simpl. rewrite lookup_insert_ne; [done|lia].
  - by destruct (showDropdown (st w)).
  - by destruct (showModal (st w)).
  - rewrite andb_false_r. done.
  - by destruct (showCopyModal (st w)).
  - simpl in Hby. apply negb_true_iff, Nat.eqb_neq in Hby.
    destruct (inflight w !! k0) as [op|] eqn:Hj; [|done].
    assert (store_op op = false) as Hop.
    { destruct (store_op op) eqn:E; [|done]. destruct Hby.
      by apply (inv_single w I k0 k op _ Hj Hk). }
    destruct op; try done. simpl.
    destruct ok; repeat split; try done; simpl; by rewrite lookup_delete_ne.
Qed.

Lemma saving_run k c w es :
  page_inv w → saving k c w → Forall (λ e, onlooker k e = true) es →
  saving k c (run w es) ∧ notes (run w es) = notes w ∧
  noteID (run w es) = noteID w ∧ page_inv (run w es) ∧
  noteContent (st (run w es)) = draft_after es (noteContent (st w)).
Proof.
  revert w. induction es as [|e es IH]; intros w I Hs Hes; [done|].
  apply Forall_cons in Hes as [He Hes].
  destruct (saving_step k c w e I Hs He) as (Hs' & Hn & Hi & Hc).
  destruct (IH (step w e) (page_inv_step w e I) Hs' Hes) as (? & ? & ? & ? & Hd).
  simpl. split; [done|]. split; [congruence|]. split; [congruence|].
  split; [done|]. unfold draft_after in *. simpl. by rewrite <- Hc.
Qed.

Lemma draft_after_quiet es c :
  Forall (λ e, quiet e = true) es → draft_after es c = c.
Proof.
  unfold draft_after. induction 1 as [|e es He _ IH]; [done|].
  simpl. by destruct e.
Qed.

(** C2. A failed save leaves the page editing and does not touch the
    draft: it is what it was when Save was clicked, unless the user typed
    meanwhile, and then it is what the user typed.  The page logs the error
    and alerts once, and no store call is pending afterwards. *)
Theorem save_failure_keeps_draft w c ok es :
  reachable w → mounted w = true → lifecycle_of w = Editing →
  noteContent (st w) = JStr c →
  ok = false ∨ notes w !! noteID w = None →
  Forall (λ e, onlooker (next w) e = true) es →
  let w1 := run (step w ClickEditSave) es in
  let w2 := step w1 (Settle (next w) ok) in
  emitted w ClickEditSave = [Call (OpUpdateDoc (noteID w) (JStr c))] ∧
  lifecycle_of w1 = Saving ∧
  lifecycle_of w2 = Editing ∧
  noteContent (st w2) = draft_after es (JStr c) ∧
  (Forall (λ e, quiet e = true) es → noteContent (st w2) = JStr c) ∧
  emitted w1 (Settle (next w) ok) =
    [ConsoleError "Error saving note:"; Alert "Failed to save the note."] ∧
  pending store_op w2 = false ∧
  notes w2 = notes w.
Proof.
  intros Hr Hm Hed Hc Hfail Hes. apply reachable_inv in Hr.
  destruct (lifecycle_editing w Hed) as [Hl He].
  destruct (click_save w Hr Hm Hl He) as (Hs & Hc0 & Hn & Hi & I1 & Hef).
  destruct (saving_run _ _ _ es I1 Hs Hes) as (Hs1 & Hn1 & Hi1 & I1' & Hc1).
  rewrite Hc0 in Hc1. rewrite Hc in *. cbv zeta.
  set (w1 := run (step w ClickEditSave) es) in *.
  destruct Hs1 as (Hk1 & He1 & Hl1 & Hm1).
  assert (Hres : step w1 (Settle (next w) ok)
                 = handleEditOrSave_resume false (settled (next w) w1)).
  { simpl. rewrite Hk1. simpl. rewrite Hi1, Hi, Hn1, Hn.
    destruct Hfail as [->| ->]; [done|by destruct ok]. }
  pose proof (page_inv_step w1 (Settle (next w) ok) I1') as I2.
  split; [|split; [|split; [|split; [|split; [|split; [|split]]]]]].
  - unfold emitted. rewrite Hef. apply drop_own.
  - unfold lifecycle_of.
    assert (pending is_delete w1 = false) as ->.
    { apply pending_false. intros j op Hj.
      destruct (is_delete op) eqn:E; [|done].
      pose proof (inv_single w1 I1' j (next w) op _ Hj Hk1
                    (store_op_of_delete op E) eq_refl) as ->.
      rewrite Hk1 in Hj. by injection Hj as <-. }
    assert (pending is_update w1 = true) as ->; [|done].
    apply pending_true. by eexists _, _.
  - rewrite lifecycle_idle; [|done|by rewrite Hres].
    rewrite Hres. simpl. by rewrite He1.
  - rewrite Hres. done.
  - intros Hq. rewrite Hres. simpl. rewrite Hc1. by apply draft_after_quiet.
  - unfold emitted. rewrite Hres. simpl. apply drop_own2.
  - apply idle_not_pending; [done|by rewrite Hres|done].
  - rewrite Hres. simpl. congruence.
Qed.

(** C3 (amended). When the save of [c1] succeeds, and the draft was not
    changed again while the save was in flight, the page ends up viewing,
    the store holds [c1] and the prose shown is [marked c1]. *)
Theorem save_success_round_trip w c1 d es :
  reachable w → mounted w = true → lifecycle_of w = Editing →
  notes w !! noteID w = Some d →
  Forall (λ e, onlooker (next w) e = true) es →
  Forall (λ e, quiet e = true) es →
  let w1 := run (step (step w (ChangeText c1)) ClickEditSave) es in
  let w2 := step w1 (Settle (next w) true) in
  lifecycle_of w2 = Viewing ∧
  noteContent (st w2) = JStr c1 ∧
  notes w2 !! noteID w = Some (<["content" := JStr c1]> d) ∧
  ∃ v, render w2 = Some v ∧ v_body v = Prose (marked c1).
Proof.
  intros Hr Hm Hed Hd Hes Hq.
  destruct (lifecycle_editing w Hed) as [Hl He].
  pose proof (reachable_inv _ (reachable_step w (ChangeText c1) Hr)) as I0.
  assert (Hw0 : step w (ChangeText c1) = upd (setNoteContent (JStr c1)) w).
  { simpl. by rewrite Hm, He. }
  rewrite Hw0 in *. set (w0 := upd (setNoteContent (JStr c1)) w) in *.
  destruct (click_save w0 I0 Hm Hl He) as (Hs & Hc0 & Hn & Hi & I1 & _).
  destruct (saving_run _ _ _ es I1 Hs Hes) as (Hs1 & Hn1 & Hi1 & I1' & Hc1).
  rewrite Hc0, (draft_after_quiet es _ Hq) in Hc1.
  cbv zeta. set (w1 := run (step w0 ClickEditSave) es) in *.
  destruct Hs1 as (Hk1 & He1 & Hl1 & Hm1).
  change (next w0) with (next w) in *. change (noteID w0) with (noteID w) in *.
  change (notes w0) with (notes w) in *.
  change (noteContent (st w0)) with (JStr c1) in *.
  assert (Hd1 : notes w1 !! noteID w1 = Some d).
  { rewrite Hi1, Hi, Hn1, Hn. done. }
  assert (Hres : step w1 (Settle (next w) true)
                 = handleEditOrSave_resume true
                     (with_notes (<[noteID w1 := <["content" := JStr c1]> d]>
                                    (notes w1)) (settled (next w) w1))).
  { simpl. rewrite Hk1. simpl. by rewrite Hd1. }
  pose proof (page_inv_step w1 (Settle (next w) true) I1') as I2.
  split; [|split; [|split]].
  - rewrite lifecycle_idle; [|done|by rewrite Hres]. by rewrite Hres.
  - rewrite Hres. done.
  - rewrite Hres. simpl. replace (noteID w) with (noteID w1) by congruence.
    by rewrite lookup_insert_eq.
  - rewrite Hres. unfold render, render_body. simpl. rewrite Hc1. simpl.
    eexists. split; done.
Qed.

(** ** Menu, dialogs and the clipboard *)

(** C7. A click on "Copy URL" writes the page's URL to the clipboard and
    closes the menu at once.  When the write succeeds the copy dialog
    opens; when it fails the user is alerted and no cell changes. *)
Theorem copy_share_link w :
  mounted w = true → showDropdown (st w) = true →
  let k := next w in
  let w1 := step w ClickCopyURL in
  emitted w ClickCopyURL = [Call (OpWriteText (href w))] ∧
  inflight w1 !! k = Some (OpWriteText (href w)) ∧
  st w1 = setShowDropdown false (st w) ∧
  st (step w1 (Settle k true)) = setShowCopyModal true (st w1) ∧
  emitted w1 (Settle k true) = [] ∧
  st (step w1 (Settle k false)) = st w1 ∧
  emitted w1 (Settle k false) = [Alert "Failed to copy URL."] ∧
  ∀ ok, showDropdown (st (step w1 (Settle k ok))) = false.
Proof.
  intros Hm Hd. unfold emitted. simpl. rewrite Hm. simpl. rewrite Hd. simpl.
  rewrite lookup_insert_eq. simpl.
  rewrite drop_own, drop_own0,
    (drop_own (effects w ++ [Call (OpWriteText (href w))])).
  repeat split; try done. by intros [].
Qed.

(** C1 (amended). The three overlay flags are separate cells.  "Delete" in
    the menu opens the delete dialog and closes the menu, "Copy URL" closes
    the menu; the menu button flips the menu only, and a clipboard write
    that succeeds opens the copy dialog only. *)
Theorem overlay_flags_per_operation w :
  mounted w = true →
  (showDropdown (st w) = true →
   st (step w ClickDeleteItem) = setShowDropdown false (setShowModal true (st w)) ∧
   st (step w ClickCopyURL) = setShowDropdown false (st w)) ∧
  st (step w ToggleMenu) = setShowDropdown (negb (showDropdown (st w))) (st w) ∧
  (∀ k url, inflight w !! k = Some (OpWriteText url) →
   st (step w (Settle k true)) = setShowCopyModal true (st w)).
Proof.
  intros Hm. simpl. rewrite Hm. simpl. split; [|split].
  - by intros ->.
  - done.
  - by intros k url ->.
Qed.

(** ** Leaving the page: what a step keeps *)

(** A settling call does not look at [mounted]. *)
Lemma step_unmount_commute w k ok :
  step (unmount w) (Settle k ok) = unmount (step w (Settle k ok)).
Proof.
  simpl. destruct (inflight w !! k) as [op|]; [|done].
  destruct op as [i|i c|i|u]; simpl.
  - destruct ok; [destruct (notes w !! i) as [d|]|]; simpl; try done.
    unfold fetchNote_resume. by destruct (createdAt_label (d !! "createdAt")).
  - destruct ok; simpl; [|done]. by destruct (notes w !! i).
  - by destruct ok.
  - by destruct ok.
Qed.


Lemma page_step_mounted w e : mounted w = true → page_step w e = step w e.
Proof. unfold page_step. by intros ->. Qed.





(** ** Deleting *)



(** ** Leaving the page *)



(** ** Further properties of the page *)

(** Case analysis of one step: the event, the guards, the pending call and
    its outcome. *)
Ltac step_cases :=
  repeat first
    [ progress simpl
    | progress rewrite ?drop_own2, ?drop_own, ?drop_own0
    | match goal with
      | |- context [settle_op ?o _ _] => destruct o
      | |- context [handleCopyURL_then ?b _] => destruct b
      | |- context [handleEditOrSave ?w] => unfold handleEditOrSave
      | |- context [match ?b with _ => _ end] => destruct b eqn:?
      end ].

Lemma step_page w e :
  noteID (step w e) = noteID w ∧ href (step w e) = href w.
Proof. destruct e; step_cases; done. Qed.

Lemma run_page w es : noteID (run w es) = noteID w ∧ href (run w es) = href w.
Proof.
  revert w. induction es as [|e es IH]; intros w; [done|]. simpl.
  destruct (IH (step w e)) as [-> ->]. apply step_page.
Qed.

(** The log only grows. *)
Lemma step_effects w e : effects (step w e) = effects w ++ emitted w e.
Proof.
  unfold emitted. destruct e; step_cases;
    rewrite <- ?app_assoc, ?app_nil_r; done.
Qed.

Lemma expected_step w e x : expected (step w e) x ↔ expected w x.
Proof.
  destruct (step_page w e) as [Hi Hu]. unfold expected.
  destruct x as [[]| | |]; rewrite ?Hi, ?Hu; done.
Qed.

Lemma emitted_expected w e : Forall (expected w) (emitted w e).
Proof.
  unfold emitted. destruct e; step_cases;
    repeat constructor; simpl; set_solver.
Qed.

Lemma emitted_no_fetch w e : fetches (emitted w e) = 0.
Proof. unfold emitted. destruct e; step_cases; done. Qed.

Lemma inflight_expected w k op :
  reachable w → inflight w !! k = Some op → expected w (Call op).
Proof.
  intros Hr. revert k op. induction Hr as [id url m|w e Hr IH]; intros k op.
  - simpl. intros [[_ <-]|[_ Hk]]%lookup_insert_Some; [done|].
    by rewrite lookup_empty in Hk.
  - intros Hk. apply expected_step.
    assert (Hcases : inflight w !! k = Some op ∨ op = OpWriteText (href w) ∨
              (∃ c, op = OpUpdateDoc (noteID w) c) ∨ op = OpDeleteDoc (noteID w)).
    { revert Hk. destruct e; step_cases;
        rewrite ?lookup_insert_Some, ?lookup_delete_Some;
        intuition (subst; eauto). }
    destruct Hcases as [Hk'|[->|[[c ->]| ->]]]; [by apply (IH k)|done..].
Qed.

Ltac step_cases_in Hin :=
  repeat first
    [ progress simpl in Hin
    | progress rewrite ?drop_own2, ?drop_own, ?drop_own0 in Hin
    | match type of Hin with
      | context [settle_op ?o _ _] => destruct o
      | context [handleCopyURL_then ?b _] => destruct b
      | context [handleEditOrSave ?w] => unfold handleEditOrSave in Hin
      | context [match ?b with _ => _ end] => destruct b eqn:?
      end ].

Lemma lifecycle_viewing w :
  lifecycle_of w = Viewing → loading (st w) = false ∧ isEditing (st w) = false.
Proof.
  unfold lifecycle_of.
  destruct (pending is_delete w), (pending is_update w),
    (loading (st w)), (isEditing (st w)); done.
Qed.

Lemma js_or_string s : js_or (Some (JStr s)) (JStr "") = JStr s.
Proof.
  simpl. destruct (String.eqb_spec s "") as [->|]; done.
Qed.

(** X1. [loading] is set exactly while a call to the store is pending. *)
Theorem loading_iff_store_call_pending w :
  reachable w →
  loading (st w) = true ↔ ∃ k op, inflight w !! k = Some op ∧ store_op op = true.
Proof.
  intros Hr. apply reachable_inv in Hr. split.
  - apply Hr.
  - intros (k & op & Hk & Hop). by apply (inv_busy w Hr k op).
Qed.

(** X2. While the first fetch is pending, whatever the user does, the
    editor is closed, the Edit button is disabled, and the page shows an
    empty body under the date line "Loading...". *)
Theorem nothing_shown_while_fetching w k id :
  reachable w → inflight w !! k = Some (OpGetDoc id) →
  id = noteID w ∧ lifecycle_of w = Loading ∧
  ∃ v, render w = Some v ∧ v_body v = Prose (marked "") ∧
       v_date v = "Loading..." ∧ v_edit_disabled v = true ∧
       v_edit_label v = LabelEdit.
Proof.
  intros Hr Hk. pose proof (inflight_expected w k _ Hr Hk) as Hid.
  apply reachable_inv in Hr.
  destruct (inv_fetching w Hr k id Hk) as (Hc & Hd & He).
  pose proof (inv_busy w Hr k _ Hk eq_refl) as Hl.
  assert (Honly : ∀ f, f (OpGetDoc id) = false →
            (∀ op, f op = true → store_op op = true) → pending f w = false).
  { intros f Hf Hs. apply pending_false. intros j op Hj.
    destruct (f op) eqn:E; [|done].
    pose proof (inv_single w Hr j k op _ Hj Hk (Hs op E) eq_refl) as ->.
    rewrite Hk in Hj. injection Hj as <-. congruence. }
  split; [done|]. split.
  - unfold lifecycle_of.
    rewrite (Honly is_delete eq_refl store_op_of_delete).
    rewrite (Honly is_update eq_refl store_op_of_update). by rewrite Hl.
  - unfold render, render_body, date_line. rewrite He, Hc, Hd, Hl. simpl.
    eexists. repeat split.
Qed.

(** X3. A [createdAt] that is truthy but no timestamp makes [toDate] throw
    after the content was stored: the page logs, goes home and stops
    loading, holds the content, and has no date. *)
Theorem load_bad_created_at w k id d v :
  reachable w → inflight w !! k = Some (OpGetDoc id) →
  notes w !! id = Some d → d !! "createdAt" = Some v →
  truthy v = true → (∀ t, v ≠ JTimestamp t) →
  let w' := step w (Settle k true) in
  emitted w (Settle k true) =
    [ConsoleError "Error fetching note:"; RouterPush "/"] ∧
  noteContent (st w') = js_or (d !! "content") (JStr "") ∧
  createdAt (st w') = None ∧ date_line (st w') = "Loading..." ∧
  loading (st w') = false.
Proof.
  intros Hr Hk Hd Hv Ht Hno. apply reachable_inv in Hr.
  destruct (inv_fetching w Hr k id Hk) as (_ & Hca & _).
  assert (createdAt_label (d !! "createdAt") = None) as Hlab.
  { rewrite Hv. simpl. rewrite Ht. destruct v; try done. by destruct (Hno t). }
  unfold emitted, date_line. simpl. rewrite Hk. simpl. rewrite Hd, Hlab. simpl.
  rewrite drop_own2, Hca. done.
Qed.

(** X4. A load that finds the note makes no outward call and ends in
    Viewing with the Edit button enabled; a string content is taken over
    as it is, the empty string included, and shown through [marked]. *)
Theorem load_success w k id d :
  reachable w → inflight w !! k = Some (OpGetDoc id) →
  notes w !! id = Some d → is_Some (createdAt_label (d !! "createdAt")) →
  let w' := step w (Settle k true) in
  emitted w (Settle k true) = [] ∧ lifecycle_of w' = Viewing ∧
  noteContent (st w') = js_or (d !! "content") (JStr "") ∧
  createdAt (st w') = createdAt_label (d !! "createdAt") ∧
  ∀ s, d !! "content" = Some (JStr s) →
    ∃ v, render w' = Some v ∧ v_body v = Prose (marked s) ∧
         v_edit_disabled v = false ∧ v_edit_label v = LabelEdit.
Proof.
  intros Hr Hk Hd [lab Hlab]. apply reachable_inv in Hr. cbv zeta.
  destruct (inv_fetching w Hr k id Hk) as (_ & _ & He).
  pose proof (page_inv_step w (Settle k true) Hr) as I'.
  assert (Hres : step w (Settle k true)
    = upd (setLoading false) (upd (setCreatedAt (Some lab))
        (upd (setNoteContent (js_or (d !! "content") (JStr "")))
           (settled k w)))).
  { simpl. rewrite Hk. simpl. rewrite Hd. unfold fetchNote_resume.
    by rewrite Hlab. }
  split; [|split; [|split; [|split]]].
  - unfold emitted. rewrite Hres. simpl. apply drop_own0.
  - rewrite lifecycle_idle; [|done|by rewrite Hres].
    rewrite Hres. simpl. by rewrite He.
  - by rewrite Hres.
  - by rewrite Hres, Hlab.
  - intros s Hs. rewrite Hres. unfold render, render_body. simpl.
    rewrite He, Hs, js_or_string. simpl. eexists. repeat split.
Qed.

(** The draft of the click is what a successful save writes, whatever is
    typed while the call is pending. *)
Lemma save_writes_draft w c1 d es :
  reachable w → mounted w = true → lifecycle_of w = Editing →
  notes w !! noteID w = Some d →
  Forall (λ e, onlooker (next w) e = true) es →
  notes (step (run (step (step w (ChangeText c1)) ClickEditSave) es)
              (Settle (next w) true))
  = <[noteID w := <["content" := JStr c1]> d]> (notes w).
Proof.
  intros Hr Hm Hed Hd Hes.
  destruct (lifecycle_editing w Hed) as [Hl He].
  pose proof (reachable_inv _ (reachable_step w (ChangeText c1) Hr)) as I0.
  assert (Hw0 : step w (ChangeText c1) = upd (setNoteContent (JStr c1)) w).
  { simpl. by rewrite Hm, He. }
  rewrite Hw0 in *. set (w0 := upd (setNoteContent (JStr c1)) w) in *.
  destruct (click_save w0 I0 Hm Hl He) as (Hs & _ & Hn & Hi & I1 & _).
  destruct (saving_run _ _ _ es I1 Hs Hes) as (Hs1 & Hn1 & Hi1 & _).
  set (w1 := run (step w0 ClickEditSave) es) in *.
  destruct Hs1 as (Hk1 & _).
  change (next w0) with (next w) in *. change (noteID w0) with (noteID w) in *.
  change (notes w0) with (notes w) in *.
  change (noteContent (st w0)) with (JStr c1) in *.
  simpl. rewrite Hk1. simpl. rewrite Hi1, Hi, Hn1, Hn, Hd. done.
Qed.

(** X5. Save, then open the note afresh: the page that loads the stored
    document holds exactly the draft that was in the editor when Save was
    clicked, and the date label the document gave before. *)
Theorem save_then_reload w c1 d url es :
  reachable w → mounted w = true → lifecycle_of w = Editing →
  notes w !! noteID w = Some d →
  Forall (λ e, onlooker (next w) e = true) es →
  let w2 := step (run (step (step w (ChangeText c1)) ClickEditSave) es)
                 (Settle (next w) true) in
  let p := step (mount (noteID w) url (notes w2)) (Settle 0 true) in
  noteContent (st p) = JStr c1 ∧
  createdAt (st p) = createdAt_label (d !! "createdAt").
Proof.
  intros Hr Hm Hed Hd Hes. cbv zeta.
  rewrite (save_writes_draft w c1 d es Hr Hm Hed Hd Hes).
  simpl. rewrite lookup_insert_eq. simpl. rewrite lookup_insert_eq.
  unfold fetchNote_resume. rewrite lookup_insert_eq.
  rewrite lookup_insert_ne by done.
  rewrite js_or_string.
  destruct (createdAt_label (d !! "createdAt")); done.
Qed.

Lemma fetches_app l1 l2 : fetches (l1 ++ l2) = fetches l1 + fetches l2.
Proof. unfold fetches. by rewrite filter_app, length_app. Qed.

(** X6. Every outward call of the page is one the source contains: store
    calls go to the page's own document, the clipboard gets the page's
    URL, the router is only sent to "/". *)
Theorem effects_expected w : reachable w → Forall (expected w) (effects w).
Proof.
  induction 1 as [id url m|w e Hr IH].
  - by repeat constructor.
  - rewrite step_effects. apply Forall_app. split.
    + eapply Forall_impl; [exact IH|]. intros x. apply expected_step.
    + eapply Forall_impl; [apply emitted_expected|].
      intros x. apply expected_step.
Qed.

(** X7. The note is fetched once, on mount, and never again: no handler
    reads the document back. *)
Theorem fetched_once w : reachable w → fetches (effects w) = 1.
Proof.
  induction 1 as [id url m|w e Hr IH]; [done|].
  by rewrite step_effects, fetches_app, IH, emitted_no_fetch.
Qed.

(** X8. [updateDoc] is called only by a click on Save in the editor, for
    the page's document and with the draft as it is at that click. *)
Theorem update_call_is_the_draft w e id c :
  Call (OpUpdateDoc id c) ∈ emitted w e →
  e = ClickEditSave ∧ mounted w = true ∧ isEditing (st w) = true ∧
  loading (st w) = false ∧ id = noteID w ∧ c = noteContent (st w).
Proof.
  unfold emitted. intros Hin.
  destruct e; step_cases_in Hin;
    repeat (apply elem_of_cons in Hin as [Hin|Hin]; [try done|]);
    try (by apply elem_of_nil in Hin).
  by injection Hin as -> ->.
Qed.

(** X9. The page alerts only when a save, a delete or a clipboard write
    was rejected, with the message of that call; a click never alerts, and
    neither does a load, however it ends. *)
Theorem alerts_only_on_rejection w e msg :
  Alert msg ∈ emitted w e →
  ∃ k ok op, e = Settle k ok ∧ inflight w !! k = Some op ∧
    failure_notice op = Some msg ∧
    (ok = true → ∃ id c, op = OpUpdateDoc id c ∧ notes w !! id = None).
Proof.
  unfold emitted. intros Hin.
  destruct e; try (simpl in Hin; destruct (inflight w !! k) as [op|] eqn:Hk);
    step_cases_in Hin;
    repeat (apply elem_of_cons in Hin as [Hin|Hin]; [try done|]);
    try (by apply elem_of_nil in Hin);
    injection Hin as ->; eexists _, _, _; repeat split; try done; eauto.
Qed.

Lemma pending_ext f w w' :
  (∀ k op, f op = true →
     inflight w' !! k = Some op ↔ inflight w !! k = Some op) →
  pending f w' = pending f w.
Proof.
  intros Hext. destruct (pending f w) eqn:E.
  - apply pending_true in E as (k & op & Hk & Hf). apply pending_true.
    exists k, op. split; [by apply Hext|done].
  - apply pending_false. intros k op Hk. destruct (f op) eqn:Hf; [|done].
    apply Hext in Hk; [|done].
    rewrite pending_false in E. rewrite (E k op Hk) in Hf. done.
Qed.

Lemma lifecycle_ext w w' :
  (∀ k op, store_op op = true →
     inflight w' !! k = Some op ↔ inflight w !! k = Some op) →
  loading (st w') = loading (st w) → isEditing (st w') = isEditing (st w) →
  lifecycle_of w' = lifecycle_of w.
Proof.
  intros Hext Hl He. unfold lifecycle_of.
  rewrite (pending_ext is_delete w w'), (pending_ext is_update w w'), Hl, He;
    [done| |].
  - intros k op Hop. apply Hext. by apply store_op_of_update.
  - intros k op Hop. apply Hext. by apply store_op_of_delete.
Qed.

(** X10. Using the menu, the two dialogs and the clipboard never changes
    the lifecycle, the note held by the page, or the store. *)
Theorem overlay_events_keep_lifecycle w e :
  reachable w → overlay_event w e = true →
  let w' := step w e in
  lifecycle_of w' = lifecycle_of w ∧
  noteContent (st w') = noteContent (st w) ∧
  createdAt (st w') = createdAt (st w) ∧
  loading (st w') = loading (st w) ∧ isEditing (st w') = isEditing (st w) ∧
  notes w' = notes w.
Proof.
  intros Hr Hov. apply reachable_inv in Hr. cbv zeta.
  assert (Hfresh : ∀ k op, inflight w !! k = Some op → next w ≠ k).
  { intros k op Hk Heq. apply (inv_fresh w Hr) in Hk. lia. }
  assert (Hcells : noteContent (st (step w e)) = noteContent (st w) ∧
    createdAt (st (step w e)) = createdAt (st w) ∧
    loading (st (step w e)) = loading (st w) ∧
    isEditing (st (step w e)) = isEditing (st w) ∧
    notes (step w e) = notes w ∧
    ∀ k op, store_op op = true →
      inflight (step w e) !! k = Some op ↔ inflight w !! k = Some op).
  { destruct e as [| | | | | | | | |j ok| |]; try done; simpl in Hov |- *.
    1-6: destruct (mounted w); [|done]; simpl;
      try (destruct (showDropdown (st w))); try (destruct (showModal (st w)));
      try (destruct (showCopyModal (st w))); simpl; repeat split; try done;
      try (intros [[_ <-]|[_ Hk]]%lookup_insert_Some; done);
      (intros Hk; rewrite lookup_insert_ne; [done|by eapply Hfresh]).
    - destruct (inflight w !! j) as [[]|] eqn:Hj; try done. simpl.
      destruct ok; simpl; repeat split; try done.
      all: try (intros [_ Hk]%lookup_delete_Some; done).
      all: intros Hk; rewrite lookup_delete_ne; [done|];
        intros ->; rewrite Hj in Hk; by injection Hk as <-. }
  destruct Hcells as (Hc & Hd & Hl & He & Hn & Hext).
  repeat split; try done. by apply lifecycle_ext.
Qed.

(** X11. While a load, a save or a delete is going on, the Delete button
    of the dialog is rendered disabled and a click on it changes nothing. *)
Theorem delete_button_disabled_while_busy w :
  reachable w →
  lifecycle_of w = Loading ∨ lifecycle_of w = Saving ∨ lifecycle_of w = Deleting →
  step w ClickConfirmDelete = w ∧
  ∀ v, render w = Some v →
    v_delete_modal v = None ∨ v_delete_modal v = Some true.
Proof.
  intros Hr Hb. apply reachable_inv in Hr.
  pose proof (lifecycle_busy w Hr Hb) as Hl. split.
  - simpl. rewrite Hl, andb_false_r. by destruct (mounted w).
  - intros v. unfold render. destruct (render_body (st w)); [|done].
    simpl. intros [= <-]. simpl. rewrite Hl.
    destruct (showModal (st w)); auto.
Qed.

(** X12. The click-outside listener closes the menu on a [mousedown]
    outside the menu and its button, and does nothing else: a mouse click
    on the button toggles the menu once, a press on a menu item leaves the
    menu up for the click, and opening the menu and pressing elsewhere
    gives back the page as it was. *)
Theorem click_outside_effect w :
  mounted w = true →
  mousedown Elsewhere w = step w PointerOutside ∧
  mousedown OnMenu w = w ∧ mousedown OnMenuButton w = w ∧
  step (mousedown OnMenuButton w) ToggleMenu
  = upd (setShowDropdown (negb (showDropdown (st w)))) w ∧
  (showDropdown (st w) = false →
   mousedown Elsewhere (step w ToggleMenu) = w) ∧
  ∀ t, mousedown t w = w ∨
       mousedown t w = upd (setShowDropdown false) w.
Proof.
  intros Hm. unfold mousedown, handleClickOutside, dropdownRef_contains.
  simpl. rewrite Hm. simpl.
  split; [by destruct (showDropdown (st w))|].
  split; [by destruct (showDropdown (st w))|].
  split; [by destruct (showDropdown (st w))|].
  split.
  { destruct (showDropdown (st w)) eqn:Hd; simpl; rewrite Hm; simpl;
      by rewrite Hd. }
  split.
  - intros Hd. rewrite Hd. simpl.
    destruct w as [i u [c ca l ed sd sm sc] nt fl nx ef mt]. simpl in *.
    by subst.
  - intros t. destruct (showDropdown (st w)), t; auto.
Qed.

(** X13. The Edit button opens the editor without any outward call: the
    textarea holds the content that was on display and no other cell
    changes. *)
Theorem begin_edit w :
  reachable w → mounted w = true → lifecycle_of w = Viewing →
  let w' := step w ClickEditSave in
  lifecycle_of w' = Editing ∧ emitted w ClickEditSave = [] ∧
  st w' = setIsEditing true (st w) ∧ notes w' = notes w ∧
  render_body (st w') = Some (Textarea (noteContent (st w))).
Proof.
  intros Hr Hm Hv. apply reachable_inv in Hr. cbv zeta.
  destruct (lifecycle_viewing w Hv) as [Hl He].
  pose proof (page_inv_step w ClickEditSave Hr) as I'.
  assert (Hres : step w ClickEditSave = upd (setIsEditing true) w).
  { simpl. rewrite Hm. simpl. rewrite Hl. unfold handleEditOrSave.
    by rewrite He. }
  split; [|split; [|split; [|split]]].
  - rewrite lifecycle_idle; [|done|by rewrite Hres]. by rewrite Hres.
  - unfold emitted. rewrite Hres. apply drop_own0.
  - by rewrite Hres.
  - by rewrite Hres.
  - by rewrite Hres.
Qed.

(** X14. There is no way to abandon an edit: the page leaves the editor
    only when a save has succeeded. *)
Theorem editor_left_only_by_saved w e :
  isEditing (st w) = true → isEditing (st (step w e)) = false →
  ∃ k id c, e = Settle k true ∧ inflight w !! k = Some (OpUpdateDoc id c) ∧
            is_Some (notes w !! id).
Proof.
  intros He Hout.
  destruct e; try (simpl in Hout; destruct (inflight w !! k) as [op|] eqn:Hk);
    step_cases_in Hout; try congruence.
  eexists _, _, _. repeat split; eauto.
Qed.

(** X15. The content cell is written only by typing in the editor and by
    the load of an existing document. *)
Theorem content_written_only_by_typing_or_load w e :
  noteContent (st (step w e)) ≠ noteContent (st w) →
  (∃ t, e = ChangeText t ∧ isEditing (st w) = true ∧ mounted w = true) ∨
  (∃ k id d, e = Settle k true ∧ inflight w !! k = Some (OpGetDoc id) ∧
             notes w !! id = Some d).
Proof.
  intros Hne.
  destruct e; try (simpl in Hne; destruct (inflight w !! k) as [op|] eqn:Hk);
    step_cases_in Hne; try done;
    first [ left; by eauto
          | destruct ok; simplify_eq; right; eexists _, _, _; by repeat split ].
Qed.

(** X16. Nothing cancels a pending call when the page is left: a call that
    settles afterwards has on the outside, on the store and on the pending
    calls exactly the effect it would have had on the mounted page; only
    the cells stay as they were. *)
Theorem settled_after_leaving_still_calls w k ok :
  let w' := page_step (unmount w) (Settle k ok) in
  effects w' = effects (step w (Settle k ok)) ∧
  notes w' = notes (step w (Settle k ok)) ∧
  inflight w' = inflight (step w (Settle k ok)) ∧
  st w' = st w.
Proof.
  cbv zeta. unfold page_step.
  change (mounted (unmount w)) with false. cbv iota.
  by rewrite step_unmount_commute.
Qed.

End Properties.

(** ** The page at work on the reference host *)

Import Host.

Lemma load_missing_goes_home_witness :
  let w' := step (mount "missing" "https://annoote.example/missing" ∅)
                 (Settle 0 true) in
  effects w' = [Call (OpGetDoc "missing"); RouterPush "/"] ∧
  noteContent (st w') = JStr "" ∧ createdAt (st w') = None.
Proof.
  pose proof (load_missing_goes_home
    (mount "missing" "https://annoote.example/missing" ∅) 0 "missing" true
    (reachable_mount _ _ _) eq_refl (or_introl eq_refl)) as (_ & Hc & Hd & _).
  split; [reflexivity | exact (conj Hc Hd)].
Defined.

Lemma load_created_at_witness :
  createdAt (st loaded) = Some "2024-02-29" ∧
  date_line (st loaded) = "2024-02-29".
Proof.
  pose proof (proj2 (load_created_at page 0 "abc123" hello eq_refl eq_refl)
                1709208000%Z eq_refl) as [Hc Hd].
  split; [exact Hc | apply Hd; vm_compute; discriminate].
Defined.

Lemma load_falsy_content_is_empty_witness :
  noteContent (st (step zero_page (Settle 0 true))) = JStr "" ∧
  marked_js (noteContent (st (step zero_page (Settle 0 true))))
  = Some "<p></p>".
Proof.
  apply (load_falsy_content_is_empty zero_page 0 "n0" zero_note
           eq_refl eq_refl).
  right. exists (JNumber 0). split; reflexivity.
Defined.

Lemma edit_save_disabled_while_busy_witness :
  lifecycle_of page = Loading ∧ step page ClickEditSave = page.
Proof.
  split; [reflexivity|].
  apply (edit_save_disabled_while_busy page (reachable_mount _ _ _)
           (or_introl eq_refl)).
Defined.

Lemma reachable_loaded : reachable loaded.
Proof. apply reachable_step, reachable_mount. Qed.

Lemma reachable_editing : reachable editing.
Proof. apply reachable_step, reachable_loaded. Qed.

Lemma save_failure_keeps_draft_witness :
  let w2 := run editing [ClickEditSave; ToggleMenu; Settle 1 false] in
  lifecycle_of w2 = Editing ∧ noteContent (st w2) = JStr "hello".
Proof.
  pose proof (save_failure_keeps_draft editing "hello" false [ToggleMenu]
    reachable_editing eq_refl eq_refl eq_refl (or_introl eq_refl)
    ltac:(repeat constructor)) as (_ & _ & Hl & _ & Hc & _).
  exact (conj Hl (Hc ltac:(repeat constructor))).
Defined.

Lemma save_success_round_trip_witness :
  let w1 := run (step (step editing (ChangeText "updated text")) ClickEditSave)
              [ClickCopyURL] in
  let w2 := step w1 (Settle (next editing) true) in
  lifecycle_of w2 = Viewing ∧ noteContent (st w2) = JStr "updated text".
Proof.
  pose proof (save_success_round_trip editing "updated text" hello
    [ClickCopyURL] reachable_editing eq_refl eq_refl eq_refl
    ltac:(repeat constructor) ltac:(repeat constructor)) as (Hl & Hc & _).
  exact (conj Hl Hc).
Defined.

(** C3. The textarea stays editable while the save is in flight: what was
    saved is "a", what the page shows once the save has succeeded is "b". *)
Lemma save_then_type_counterexample :
  let w := run editing
             [ChangeText "a"; ClickEditSave; ChangeText "b"; Settle 1 true] in
  (lifecycle_of (run editing [ChangeText "a"]) = Editing ∧
   lifecycle_of (run editing [ChangeText "a"; ClickEditSave]) = Saving ∧
   lifecycle_of w = Viewing ∧
   (notes w !! "abc123") ≫= (.!! "content") = Some (JStr "a") ∧
   v_body <$> render w = Some (Prose (marked "b"))) ∧
  ¬ (∀ (w : World) c1 es,
       reachable w → mounted w = true → lifecycle_of w = Editing →
       is_Some (notes w !! noteID w) →
       Forall (λ e, onlooker (next w) e = true) es →
       v_body <$> render
         (step (run (step (step w (ChangeText c1)) ClickEditSave) es)
               (Settle (next w) true))
       = Some (Prose (marked c1))).
Proof.
  split; [repeat split; reflexivity|]. intros Hclaim.
  specialize (Hclaim editing "a" [ChangeText "b"] reachable_editing
                eq_refl eq_refl ltac:(by eexists) ltac:(repeat constructor)).
  discriminate Hclaim.
Qed.

Lemma copy_share_link_witness :
  showCopyModal (st (run menu_open [ClickCopyURL; Settle 1 true])) = true ∧
  showDropdown (st (run menu_open [ClickCopyURL; Settle 1 false])) = false.
Proof.
  pose proof (copy_share_link menu_open eq_refl eq_refl)
    as (_ & _ & _ & Hok & _ & _ & _ & Hmenu).
  split; [exact (f_equal showCopyModal Hok) | exact (Hmenu false)].
Defined.

(** C1. The menu is opened again while the clipboard write is pending;
    when the write succeeds the copy dialog opens over the open menu. *)
Lemma two_overlays_counterexample :
  let w := run loaded [ToggleMenu; ClickCopyURL; ToggleMenu; Settle 1 true] in
  (reachable w ∧ showDropdown (st w) = true ∧ showCopyModal (st w) = true ∧
   v_menu <$> render w = Some true ∧ v_copy_modal <$> render w = Some true) ∧
  ¬ (∀ w : World, reachable w → overlays_visible (st w) ≤ 1).
Proof.
  assert (reachable
            (run loaded [ToggleMenu; ClickCopyURL; ToggleMenu; Settle 1 true]))
    as Hr by apply reachable_run, reachable_loaded.
  split; [repeat split; first [exact Hr|reflexivity]|].
  intros Hclaim. apply Hclaim in Hr. revert Hr. vm_compute. lia.
Qed.

Lemma overlay_flags_per_operation_witness :
  st (step loaded ToggleMenu) = setShowDropdown true (st loaded).
Proof.
  exact (proj1 (proj2 (overlay_flags_per_operation loaded eq_refl))).
Defined.

Lemma reachable_confirming : reachable confirming.
Proof. apply reachable_run, reachable_loaded. Qed.


(** ** The further properties on the reference host *)

Lemma loading_iff_store_call_pending_witness :
  loading (st page) = true ↔
  ∃ k op, inflight page !! k = Some op ∧ store_op op = true.
Proof.
  exact (loading_iff_store_call_pending page (reachable_mount _ _ _)).
Defined.

(** The user opens the menu and presses the disabled Edit button while the
    note is still on its way. *)
Lemma nothing_shown_while_fetching_witness :
  lifecycle_of (run page [ToggleMenu; ClickEditSave]) = Loading.
Proof.
  exact (proj1 (proj2 (nothing_shown_while_fetching
    (run page [ToggleMenu; ClickEditSave]) 0 "abc123"
    (reachable_run _ _ (reachable_mount _ _ _)) eq_refl))).
Defined.

Lemma load_bad_created_at_witness :
  emitted undated_page (Settle 0 true) =
    [ConsoleError "Error fetching note:"; RouterPush "/"] ∧
  noteContent (st (step undated_page (Settle 0 true)))
  = js_or (undated !! "content") (JStr "").
Proof.
  pose proof (load_bad_created_at undated_page 0 "u1" undated
    (JStr "yesterday") (reachable_mount _ _ _) eq_refl eq_refl eq_refl
    eq_refl ltac:(discriminate)) as (He & Hc & _).
  exact (conj He Hc).
Defined.

Lemma load_success_witness :
  emitted page (Settle 0 true) = [] ∧
  lifecycle_of (step page (Settle 0 true)) = Viewing.
Proof.
  pose proof (load_success page 0 "abc123" hello (reachable_mount _ _ _)
    eq_refl eq_refl ltac:(eexists; reflexivity)) as (He & Hl & _).
  exact (conj He Hl).
Defined.

Lemma save_then_reload_witness :
  let w2 := step (run (step (step editing (ChangeText "a")) ClickEditSave)
                      [ChangeText "b"])
                 (Settle (next editing) true) in
  let p := step (mount (noteID editing) "https://annoote.example/abc123"
                   (notes w2)) (Settle 0 true) in
  noteContent (st p) = JStr "a".
Proof.
  exact (proj1 (save_then_reload editing "a" hello
    "https://annoote.example/abc123" [ChangeText "b"] reachable_editing
    eq_refl eq_refl eq_refl ltac:(repeat constructor))).
Defined.

Lemma effects_expected_witness :
  Forall (expected confirming) (effects confirming).
Proof. exact (effects_expected confirming reachable_confirming). Defined.

Lemma fetched_once_witness : fetches (effects editing) = 1.
Proof. exact (fetched_once editing reachable_editing). Defined.

Lemma update_call_is_the_draft_witness :
  ClickEditSave = ClickEditSave ∧ mounted editing = true ∧
  isEditing (st editing) = true ∧ loading (st editing) = false ∧
  "abc123" = noteID editing ∧ JStr "hello" = noteContent (st editing).
Proof.
  assert (Hin : Call (OpUpdateDoc "abc123" (JStr "hello"))
                ∈ emitted editing ClickEditSave).
  { change (emitted editing ClickEditSave)
      with [Call (OpUpdateDoc "abc123" (JStr "hello"))]. constructor. }
  exact (update_call_is_the_draft editing ClickEditSave _ _ Hin).
Defined.

Lemma alerts_only_on_rejection_witness :
  ∃ k ok op, Settle 1 false = Settle k ok ∧
    inflight (step editing ClickEditSave) !! k = Some op ∧
    failure_notice op = Some "Failed to save the note." ∧
    (ok = true → ∃ id c, op = OpUpdateDoc id c ∧
       notes (step editing ClickEditSave) !! id = None).
Proof.
  assert (Hin : Alert "Failed to save the note."
                ∈ emitted (step editing ClickEditSave) (Settle 1 false)).
  { change (emitted (step editing ClickEditSave) (Settle 1 false))
      with [ConsoleError "Error saving note:";
            Alert "Failed to save the note."].
    constructor. constructor. }
  exact (alerts_only_on_rejection _ _ _ Hin).
Defined.

Lemma overlay_events_keep_lifecycle_witness :
  lifecycle_of (step editing ClickCopyURL) = lifecycle_of editing.
Proof.
  exact (proj1 (overlay_events_keep_lifecycle editing ClickCopyURL
                  reachable_editing eq_refl)).
Defined.

Lemma delete_button_disabled_while_busy_witness :
  step page ClickConfirmDelete = page.
Proof.
  exact (proj1 (delete_button_disabled_while_busy page
                  (reachable_mount _ _ _) (or_introl eq_refl))).
Defined.

Lemma click_outside_effect_witness :
  mousedown Elsewhere (step loaded ToggleMenu) = loaded.
Proof.
  apply (click_outside_effect loaded eq_refl). reflexivity.
Defined.

Lemma begin_edit_witness :
  lifecycle_of (step loaded ClickEditSave) = Editing ∧
  emitted loaded ClickEditSave = [].
Proof.
  pose proof (begin_edit loaded reachable_loaded eq_refl eq_refl)
    as (Hl & He & _).
  exact (conj Hl He).
Defined.

Lemma editor_left_only_by_saved_witness :
  ∃ k id c, Settle 1 true = Settle k true ∧
    inflight (step editing ClickEditSave) !! k = Some (OpUpdateDoc id c) ∧
    is_Some (notes (step editing ClickEditSave) !! id).
Proof.
  exact (editor_left_only_by_saved (step editing ClickEditSave)
           (Settle 1 true) eq_refl eq_refl).
Defined.

Lemma content_written_only_by_typing_or_load_witness :
  (∃ t, Settle 0 true = ChangeText t ∧ isEditing (st page) = true ∧
        mounted page = true) ∨
  (∃ k id d, Settle 0 true = Settle k true ∧
             inflight page !! k = Some (OpGetDoc id) ∧
             notes page !! id = Some d).
Proof.
  apply (content_written_only_by_typing_or_load page (Settle 0 true)).
  discriminate.
Defined.
